(** * db_manager_app: the relational access layer of the e-commerce service

    A shallow embedding of [db_manager_app.py].  The Python module talks to a
    SQLite file through the [sqlite3] binding; the embedding therefore has two
    layers:

    - [Sqlite]: a reference model of the part of the engine that the SQL text
      of the module exercises (tables with declared columns, column affinity,
      NOT NULL and PRIMARY KEY constraints, rowid aliases, statement-level
      atomicity, transactions of one connection);
    - the module's own functions ([init_db], [get_all], [get_by_id],
      [get_column_values], [insert_row], [insert_or_add_delivery]), written
      over that model statement by statement.

    Boundaries of the engine model.  Values are NULL, integers and text; an
    integer is a mathematical integer (the 64-bit storage class of the engine,
    its REAL values and BLOBs are not modelled).  Column and table names are
    compared exactly.  Foreign keys are declared by the schema but, as in the
    engine's default configuration used by the module, never enforced. *)

From Stdlib Require Import ZArith List String Ascii Bool Lia DecimalString.
From Stdlib Require Import Permutation.
Import ListNotations.

Open Scope string_scope.
Open Scope Z_scope.

(** ** Values and the dictionaries exchanged with the caller *)

Inductive value : Type :=
| VNull
| VInt (z : Z)
| VText (s : string).

Definition value_eqb (a b : value) : bool :=
  match a, b with
  | VNull, VNull => true
  | VInt x, VInt y => Z.eqb x y
  | VText x, VText y => String.eqb x y
  | _, _ => false
  end.

(** A Python [dict] with string keys: insertion-ordered, looked up by key. *)
Definition dict : Type := list (string * value).

Fixpoint dict_get (k : string) (d : dict) : option value :=
  match d with
  | [] => None
  | (k', v) :: d' => if String.eqb k k' then Some v else dict_get k d'
  end.

Definition dict_keys (d : dict) : list string := map fst d.
Definition dict_values (d : dict) : list value := map snd d.

Definition has_key (k : string) (d : dict) : bool :=
  existsb (String.eqb k) (dict_keys d).

(** [d[k]] for a key known to be present; the engine reads a missing field
    of one of its own rows as NULL. *)
Definition field (k : string) (d : dict) : value :=
  match dict_get k d with
  | Some v => v
  | None => VNull
  end.

Fixpoint mem_string (s : string) (l : list string) : bool :=
  match l with
  | [] => false
  | x :: l' => String.eqb s x || mem_string s l'
  end.

Fixpoint join (sep : string) (l : list string) : string :=
  match l with
  | [] => ""
  | [x] => x
  | x :: l' => x ++ sep ++ join sep l'
  end.

(** Outcome of a call into the binding: a value, or a raised
    [sqlite3.Error] carrying [str(exc)]. *)
Inductive result (A : Type) : Type :=
| Ok (a : A)
| Raise (msg : string).

Arguments Ok {A} a.
Arguments Raise {A} msg.

(** ** The engine *)

Module Sqlite.

Inductive affinity : Type := AInteger | AText.

Record column : Type := mkColumn {
  col_name : string;
  col_aff : affinity;
  col_notnull : bool
}.

Definition row : Type := dict.

Record table : Type := mkTable {
  tbl_name : string;
  tbl_cols : list column;
  tbl_pk : list string;
  tbl_rows : list row
}.

(** *** Coercions between text and integers *)

Definition int_of_text (s : string) : option Z :=
  match s with
  | String "+" r =>
      match r with
      | String "-" _ => None
      | _ => option_map Z.of_int (NilZero.int_of_string r)
      end
  | _ => option_map Z.of_int (NilZero.int_of_string s)
  end.

Definition text_of_int (z : Z) : string :=
  NilZero.string_of_int (Z.to_int z).

Definition digit_of (c : ascii) : option Z :=
  let n := nat_of_ascii c in
  if (Nat.leb 48 n && Nat.leb n 57)%bool then Some (Z.of_nat (n - 48)) else None.

Fixpoint digits_prefix (acc : Z) (s : string) : Z :=
  match s with
  | EmptyString => acc
  | String c r =>
      match digit_of c with
      | Some d => digits_prefix (10 * acc + d) r
      | None => acc
      end
  end.

(** Numeric value of a text operand of [+]: its longest integer prefix,
    0 when there is none. *)
Definition numeric_prefix (s : string) : Z :=
  match s with
  | String "-" r => - digits_prefix 0 r
  | String "+" r => digits_prefix 0 r
  | _ => digits_prefix 0 s
  end.

(** A value written to, or compared with, a column takes the column's
    affinity: integer-looking text becomes an integer in an INTEGER column,
    an integer becomes its decimal text in a TEXT column. *)
Definition apply_affinity (a : affinity) (v : value) : value :=
  match a, v with
  | AInteger, VText s =>
      match int_of_text s with
      | Some z => VInt z
      | None => VText s
      end
  | AText, VInt z => VText (text_of_int z)
  | _, _ => v
  end.

(** [a + b]: NULL when an operand is NULL. *)
Definition sql_add (a b : value) : value :=
  match a, b with
  | VNull, _ | _, VNull => VNull
  | VInt x, VInt y => VInt (x + y)
  | VInt x, VText t => VInt (x + numeric_prefix t)
  | VText s, VInt y => VInt (numeric_prefix s + y)
  | VText s, VText t => VInt (numeric_prefix s + numeric_prefix t)
  end.

(** [stored = ?]: never true on NULL. *)
Definition sql_eq (stored param : value) : bool :=
  match stored, param with
  | VNull, _ | _, VNull => false
  | _, _ => value_eqb stored param
  end.

(** *** Schema queries *)

Definition col_names (tb : table) : list string := map col_name (tbl_cols tb).

Definition find_col (c : string) (tb : table) : option column :=
  find (fun col => String.eqb c (col_name col)) (tbl_cols tb).

Definition has_col (c : string) (tb : table) : bool :=
  mem_string c (col_names tb).

(** A single INTEGER PRIMARY KEY column is an alias of the rowid. *)
Definition rowid_alias (tb : table) : option string :=
  match tbl_pk tb with
  | [c] =>
      match find_col c tb with
      | Some (mkColumn _ AInteger _) => Some c
      | _ => None
      end
  | _ => None
  end.

Definition qualified (tb : table) (c : string) : string :=
  tbl_name tb ++ "." ++ c.

(** *** Row-level helpers *)

Definition key_of (pk : list string) (r : row) : list value :=
  map (fun c => field c r) pk.

Definition has_null (k : list value) : bool :=
  existsb (fun v => value_eqb v VNull) k.

Fixpoint key_eqb (k1 k2 : list value) : bool :=
  match k1, k2 with
  | [], [] => true
  | a :: k1', b :: k2' => value_eqb a b && key_eqb k1' k2'
  | _, _ => false
  end.

(** Two rows collide on a declared primary key when their keys are equal
    and free of NULL. *)
Definition key_conflict (pk : list string) (r r' : row) : bool :=
  match pk with
  | [] => false
  | _ => negb (has_null (key_of pk r)) && key_eqb (key_of pk r) (key_of pk r')
  end.

Definition int_of_value (v : value) : Z :=
  match v with
  | VInt z => z
  | _ => 0
  end.

(** One more than the largest rowid in use; 1 in an empty table. *)
Definition max_rowid (c : string) (rows : list row) : option Z :=
  fold_right (fun r m =>
                match m with
                | None => Some (int_of_value (field c r))
                | Some z => Some (Z.max (int_of_value (field c r)) z)
                end) None rows.

Definition next_rowid (c : string) (rows : list row) : Z :=
  match max_rowid c rows with
  | None => 1
  | Some z => z + 1
  end.

Fixpoint set_field (c : string) (v : value) (r : row) : row :=
  match r with
  | [] => []
  | (k, x) :: r' =>
      if String.eqb c k then (k, v) :: r' else (k, x) :: set_field c v r'
  end.

(** Rows of a rowid-alias table are kept in rowid order, which is the
    order of a full scan. *)
Fixpoint insert_by_rowid (c : string) (r : row) (rows : list row) : list row :=
  match rows with
  | [] => [r]
  | r' :: rows' =>
      if int_of_value (field c r) <? int_of_value (field c r')
      then r :: rows
      else r' :: insert_by_rowid c r rows'
  end.

Definition first_null_notnull (tb : table) (r : row) : option string :=
  option_map col_name
    (find (fun col => col_notnull col && value_eqb (field (col_name col) r) VNull)
          (tbl_cols tb)).

Definition unique_message (tb : table) : string :=
  "UNIQUE constraint failed: " ++ join ", " (map (qualified tb) (tbl_pk tb)).

(** *** INSERT INTO t (cols) VALUES (?, ...) *)

Definition bound_row (tb : table) (cols : list string) (vals : list value) : row :=
  map (fun col =>
         (col_name col,
          apply_affinity (col_aff col) (field (col_name col) (combine cols vals))))
      (tbl_cols tb).

(** The rowid alias is assigned when NULL and must be an integer
    otherwise. *)
Definition assign_rowid (tb : table) (r : row) : result row :=
  match rowid_alias tb with
  | None => Ok r
  | Some c =>
      match field c r with
      | VNull => Ok (set_field c (VInt (next_rowid c (tbl_rows tb))) r)
      | VInt _ => Ok r
      | VText _ => Raise "datatype mismatch"
      end
  end.

Definition place_row (tb : table) (r : row) : list row :=
  match rowid_alias tb with
  | Some c => insert_by_rowid c r (tbl_rows tb)
  | None => (tbl_rows tb ++ [r])%list
  end.

Definition with_rows (tb : table) (rows : list row) : table :=
  mkTable (tbl_name tb) (tbl_cols tb) (tbl_pk tb) rows.

Definition insert (tb : table) (cols : list string) (vals : list value)
  : result table :=
  match find (fun c => negb (has_col c tb)) cols with
  | Some c =>
      Raise ("table " ++ tbl_name tb ++ " has no column named " ++ c)
  | None =>
      match assign_rowid tb (bound_row tb cols vals) with
      | Raise msg => Raise msg
      | Ok r =>
          match first_null_notnull tb r with
          | Some c => Raise ("NOT NULL constraint failed: " ++ qualified tb c)
          | None =>
              if existsb (key_conflict (tbl_pk tb) r) (tbl_rows tb)
              then Raise (unique_message tb)
              else Ok (with_rows tb (place_row tb r))
          end
      end
  end.

(** *** SELECT ... WHERE c1 = ? AND c2 = ? ... *)

Definition matches (tb : table) (cond : list (string * value)) (r : row) : bool :=
  forallb (fun cv =>
             match find_col (fst cv) tb with
             | Some col => sql_eq (field (fst cv) r) (apply_affinity (col_aff col) (snd cv))
             | None => false
             end) cond.

Definition missing_col (tb : table) (cs : list string) : option string :=
  find (fun c => negb (has_col c tb)) cs.

(** [proj] is the selected column, [None] for [*]. *)
Definition project (proj : option string) (r : row) : row :=
  match proj with
  | None => r
  | Some c => [(c, field c r)]
  end.

Definition select_where (tb : table) (proj : option string)
           (cond : list (string * value)) : result (list row) :=
  match missing_col tb (match proj with
                        | None => map fst cond
                        | Some c => c :: map fst cond
                        end) with
  | Some c => Raise ("no such column: " ++ c)
  | None => Ok (map (project proj) (filter (matches tb cond) (tbl_rows tb)))
  end.

(** SELECT c FROM t *)
Definition select_column (tb : table) (c : string) : result (list row) :=
  select_where tb (Some c) [].

(** *** UPDATE t SET c = c + ? WHERE ... *)

Fixpoint has_conflict (pk : list string) (rows : list row) : bool :=
  match rows with
  | [] => false
  | r :: rows' => existsb (key_conflict pk r) rows' || has_conflict pk rows'
  end.

Definition update_add (tb : table) (c : string) (delta : value)
           (cond : list (string * value)) : result table :=
  match missing_col tb (c :: map fst cond) with
  | Some c' => Raise ("no such column: " ++ c')
  | None =>
      match find_col c tb with
      | None => Raise ("no such column: " ++ c)
      | Some col =>
          let new_value r :=
            apply_affinity (col_aff col) (sql_add (field c r) delta) in
          let rows' :=
            map (fun r => if matches tb cond r
                          then set_field c (new_value r) r
                          else r) (tbl_rows tb) in
          if col_notnull col
             && existsb (fun r => value_eqb (new_value r) VNull)
                        (filter (matches tb cond) (tbl_rows tb))
          then Raise ("NOT NULL constraint failed: " ++ qualified tb c)
          else if mem_string c (tbl_pk tb) && has_conflict (tbl_pk tb) rows'
          then Raise (unique_message tb)
          else Ok (with_rows tb rows')
      end
  end.

(** *** ALTER TABLE t ADD COLUMN c INTEGER *)

Definition add_column (tb : table) (c : string) : result table :=
  if has_col c tb
  then Raise ("duplicate column name: " ++ c)
  else Ok (mkTable (tbl_name tb)
                   (tbl_cols tb ++ [mkColumn c AInteger false])%list
                   (tbl_pk tb)
                   (map (fun r => (r ++ [(c, VNull)])%list) (tbl_rows tb))).

End Sqlite.

Import Sqlite.

(** ** The database file and a connection to it *)

(** The table identifiers that the module interpolates into its SQL text;
    the routes pass exactly these six. *)
Inductive table_id : Type :=
| Customer | Seller | Catalog | Order | OrderItem | Delivery.

Definition table_sql_name (t : table_id) : string :=
  match t with
  | Customer => "customer"
  | Seller => "seller"
  | Catalog => "catalog"
  | Order => "order"
  | OrderItem => "order_item"
  | Delivery => "delivery"
  end.

Definition all_tables : list table_id :=
  [Customer; Seller; Catalog; Order; OrderItem; Delivery].

(** The content of [ecommerce.db]: each table exists or not. *)
Record database : Type := mkDatabase {
  db_customer : option table;
  db_seller : option table;
  db_catalog : option table;
  db_order : option table;
  db_order_item : option table;
  db_delivery : option table
}.

Definition empty_database : database :=
  mkDatabase None None None None None None.

Definition db_get (db : database) (t : table_id) : option table :=
  match t with
  | Customer => db_customer db
  | Seller => db_seller db
  | Catalog => db_catalog db
  | Order => db_order db
  | OrderItem => db_order_item db
  | Delivery => db_delivery db
  end.

Definition db_set (db : database) (t : table_id) (tb : table) : database :=
  match db with
  | mkDatabase c s k o oi d =>
      match t with
      | Customer => mkDatabase (Some tb) s k o oi d
      | Seller => mkDatabase c (Some tb) k o oi d
      | Catalog => mkDatabase c s (Some tb) o oi d
      | Order => mkDatabase c s k (Some tb) oi d
      | OrderItem => mkDatabase c s k o (Some tb) d
      | Delivery => mkDatabase c s k o oi (Some tb)
      end
  end.

(** A connection owns a view of the file.  Writes of a transaction stay in
    the view until [commit]; [rollback] and [close] drop them. *)
Record connection : Type := mkConnection {
  disk : database;
  view : database;
  in_transaction : bool
}.

(** Code running on a connection: it returns or raises, and leaves the
    connection in some state either way. *)
Definition sql (A : Type) : Type := connection -> result A * connection.

Definition ret {A : Type} (a : A) : sql A := fun c => (Ok a, c).

Definition bind {A B : Type} (m : sql A) (k : A -> sql B) : sql B :=
  fun c =>
    match m c with
    | (Ok a, c') => k a c'
    | (Raise msg, c') => (Raise msg, c')
    end.

Notation "x <- m ;; k" := (bind m (fun x => k))
  (at level 61, m at next level, right associativity).
Notation "m ;;; k" := (bind m (fun _ => k))
  (at level 61, right associativity).

Definition get_connection (db : database) : connection :=
  mkConnection db db false.

Definition commit : sql unit :=
  fun c => (Ok tt, mkConnection (view c) (view c) false).

Definition rollback : sql unit :=
  fun c => (Ok tt, mkConnection (disk c) (disk c) false).

Definition close (c : connection) : database := disk c.

Definition no_such_table {A : Type} (t : table_id) : result A :=
  Raise ("no such table: " ++ table_sql_name t).

(** A reading statement on table [t]. *)
Definition query {A : Type} (t : table_id) (q : table -> result A) : sql A :=
  fun c =>
    match db_get (view c) t with
    | None => (no_such_table t, c)
    | Some tb => (q tb, c)
    end.

(** A data-modifying statement on table [t]: the binding opens a transaction
    before it, and a statement that fails changes nothing. *)
Definition modify (t : table_id) (stmt : table -> result table) : sql unit :=
  fun c =>
    let c1 := mkConnection (disk c) (view c) true in
    match db_get (view c) t with
    | None => (no_such_table t, c1)
    | Some tb =>
        match stmt tb with
        | Ok tb' => (Ok tt, mkConnection (disk c) (db_set (view c) t tb') true)
        | Raise msg => (Raise msg, c1)
        end
    end.

(** A schema statement: outside a transaction it is committed at once. *)
Definition define (f : database -> result database) : sql unit :=
  fun c =>
    match f (view c) with
    | Ok d' =>
        (Ok tt,
         if in_transaction c
         then mkConnection (disk c) d' true
         else mkConnection d' d' false)
    | Raise msg => (Raise msg, c)
    end.

Definition execute_select_all (t : table_id) : sql (list row) :=
  query t (fun tb => Ok (tbl_rows tb)).

Definition execute_select_where (t : table_id) (proj : option string)
           (cond : list (string * value)) : sql (list row) :=
  query t (fun tb => select_where tb proj cond).

Definition execute_select_column (t : table_id) (c : string) : sql (list row) :=
  query t (fun tb => select_column tb c).

Definition execute_count (t : table_id) : sql Z :=
  query t (fun tb => Ok (Z.of_nat (List.length (tbl_rows tb)))).

Definition execute_insert (t : table_id) (cols : list string) (vals : list value)
  : sql unit :=
  modify t (fun tb => insert tb cols vals).

Definition execute_update_add (t : table_id) (c : string) (delta : value)
           (cond : list (string * value)) : sql unit :=
  modify t (fun tb => update_add tb c delta cond).

(** PRAGMA table_info(t): the column names, none for a missing table. *)
Definition execute_table_info (t : table_id) : sql (list string) :=
  fun c =>
    match db_get (view c) t with
    | None => (Ok [], c)
    | Some tb => (Ok (col_names tb), c)
    end.

Definition execute_add_column (t : table_id) (col : string) : sql unit :=
  define (fun d =>
            match db_get d t with
            | None => no_such_table t
            | Some tb =>
                match add_column tb col with
                | Ok tb' => Ok (db_set d t tb')
                | Raise msg => Raise msg
                end
            end).

(** CREATE TABLE IF NOT EXISTS *)
Definition create_if_not_exists (t : table_id) (cols : list column)
           (pk : list string) (d : database) : database :=
  match db_get d t with
  | Some _ => d
  | None => db_set d t (mkTable (table_sql_name t) cols pk [])
  end.

Fixpoint executemany (t : table_id) (cols : list string)
         (seq_of_parameters : list (list value)) : sql unit :=
  match seq_of_parameters with
  | [] => ret tt
  | vals :: rest => execute_insert t cols vals ;;; executemany t cols rest
  end.

(** [fetchone] on the rows of the last statement. *)
Definition fetchone (rows : list row) : option row := hd_error rows.

(** ** The module's functions *)

Definition col (name : string) (a : affinity) (notnull : bool) : column :=
  mkColumn name a notnull.

(** The six CREATE TABLE IF NOT EXISTS statements of [init_db]. *)
Definition schema_script (d : database) : database :=
  let d := create_if_not_exists Customer
             [col "id" AInteger false; col "name" AText true] ["id"] d in
  let d := create_if_not_exists Seller
             [col "id" AInteger false; col "nation" AText true] ["id"] d in
  let d := create_if_not_exists Catalog
             [col "id" AInteger false; col "name" AText true;
              col "color" AText true] ["id"] d in
  let d := create_if_not_exists Order
             [col "id" AInteger false; col "customer_id" AInteger true;
              col "date" AText true; col "item_id" AInteger false] ["id"] d in
  let d := create_if_not_exists OrderItem
             [col "order_id" AInteger true; col "catalog_id" AInteger true;
              col "quantity" AInteger true] ["order_id"; "catalog_id"] d in
  create_if_not_exists Delivery
    [col "seller_id" AInteger true; col "catalog_id" AInteger true;
     col "quantity" AInteger true] ["seller_id"; "catalog_id"] d.

Definition executescript_schema : sql unit :=
  define (fun d => Ok (schema_script d)).

Definition table_empty (t : table_id) : sql bool :=
  c <- execute_count t ;; ret (c =? 0).

Definition seed (t : table_id) (cols : list string) (params : list (list value))
  : sql unit :=
  e <- table_empty t ;;
  if e then executemany t cols params else ret tt.

Definition init_db_body : sql unit :=
  executescript_schema ;;;
  columns <- execute_table_info Order ;;
  (if negb (mem_string "item_id" columns)
   then execute_add_column Order "item_id"
   else ret tt) ;;;
  seed Customer ["id"; "name"]
    [[VInt 1; VText "Alice"]; [VInt 2; VText "Bob"]; [VInt 3; VText "Carol"]] ;;;
  seed Seller ["id"; "nation"]
    [[VInt 1; VText "Italy"]; [VInt 2; VText "France"]] ;;;
  seed Catalog ["id"; "name"; "color"]
    [[VInt 1; VText "T-Shirt"; VText "red"];
     [VInt 2; VText "T-Shirt"; VText "blue"];
     [VInt 3; VText "Shoes"; VText "black"]] ;;;
  seed Order ["id"; "customer_id"; "date"; "item_id"]
    [[VInt 1; VInt 1; VText "2026-02-01"; VInt 1];
     [VInt 2; VInt 2; VText "2026-02-02"; VInt 2]] ;;;
  seed OrderItem ["order_id"; "catalog_id"; "quantity"]
    [[VInt 1; VInt 1; VInt 2]; [VInt 1; VInt 3; VInt 1]; [VInt 2; VInt 2; VInt 1]] ;;;
  seed Delivery ["seller_id"; "catalog_id"; "quantity"]
    [[VInt 1; VInt 1; VInt 100]; [VInt 1; VInt 2; VInt 50]; [VInt 2; VInt 3; VInt 70]] ;;;
  commit.

(** [init_db()]: the outcome and the file it leaves.  When a statement
    raises, the connection is abandoned and the file keeps what was
    committed. *)
Definition init_db (db : database) : result unit * database :=
  let (r, conn) := init_db_body (get_connection db) in
  (r, close conn).

Definition rows_to_list (rows : list row) (column : string) : list value :=
  map (fun r => field column r) rows.

(** The three readers leave the file as it is; an engine error propagates
    to the caller. *)
Definition get_all (table : table_id) (db : database) : result (list dict) :=
  fst (execute_select_all table (get_connection db)).


Definition get_column_values (table : table_id) (column : string) (db : database)
  : result (list value) :=
  fst ((rows <- execute_select_column table column ;;
        ret (rows_to_list rows column)) (get_connection db)).

(** [try: ... except sqlite3.Error as exc: conn.rollback(); conn.close();
    return False, str(exc)], followed by [conn.close(); return True,
    "inserted"]. *)
Definition try_write (body : sql unit) (db : database)
  : (bool * string) * database :=
  match body (get_connection db) with
  | (Ok _, conn) => ((true, "inserted"), close conn)
  | (Raise msg, conn) => ((false, msg), close (snd (rollback conn)))
  end.

Definition insert_row (table : table_id) (payload : dict) (db : database)
  : (bool * string) * database :=
  match payload with
  | [] => ((false, "Empty payload"), db)
  | _ =>
      let columns := dict_keys payload in
      let values := dict_values payload in
      try_write (execute_insert table columns values ;;; commit) db
  end.

Definition required : list string := ["seller_id"; "catalog_id"; "quantity"].

(** The two statements of [insert_or_add_delivery]: the lookup of the key
    pair and, depending on [if row:], the UPDATE or the INSERT. *)
Definition delivery_key (payload : dict) : list (string * value) :=
  [("seller_id", field "seller_id" payload);
   ("catalog_id", field "catalog_id" payload)].

Definition delivery_select (payload : dict) : sql (option row) :=
  rows <- execute_select_where Delivery (Some "quantity") (delivery_key payload) ;;
  ret (fetchone rows).

Definition delivery_write (payload : dict) (found : option row) : sql unit :=
  match found with
  | Some _ =>
      execute_update_add Delivery "quantity" (field "quantity" payload)
        (delivery_key payload)
  | None =>
      execute_insert Delivery ["seller_id"; "catalog_id"; "quantity"]
        [field "seller_id" payload; field "catalog_id" payload;
         field "quantity" payload]
  end.

Definition missing_required (payload : dict) : bool :=
  negb (forallb (fun k => has_key k payload) required).

Definition required_message : string :=
  "seller_id, catalog_id and quantity are required".

Definition insert_or_add_delivery (payload : dict) (db : database)
  : (bool * string) * database :=
  if missing_required payload
  then ((false, required_message), db)
  else
    try_write
      (found <- delivery_select payload ;;
       delivery_write payload found ;;;
       commit) db.

(** The spec's [upsert_delivery(seller_id, catalog_id, quantity)]: the
    route hands the three fields over as one payload. *)
Definition delivery_payload (seller_id catalog_id quantity : Z) : dict :=
  [("seller_id", VInt seller_id); ("catalog_id", VInt catalog_id);
   ("quantity", VInt quantity)].

Definition seeded : database := snd (init_db empty_database).

(** ** Notions used by the statements *)

Definition row_count (db : database) (t : table_id) : nat :=
  match db_get db t with
  | Some tb => List.length (tbl_rows tb)
  | None => 0%nat
  end.

(** Every table exists and holds at least one row. *)
Definition already_seeded (db : database) : bool :=
  forallb (fun t => match db_get db t with
                    | Some tb => negb (Nat.eqb (List.length (tbl_rows tb)) 0)
                    | None => false
                    end) all_tables.

(** What [init_db] does to a file whose tables all exist and hold rows. *)
Definition migrated_order (tb : table) : table :=
  if has_col "item_id" tb then tb
  else mkTable (tbl_name tb)
               (tbl_cols tb ++ [mkColumn "item_id" AInteger false])
               (tbl_pk tb)
               (map (fun r => (r ++ [("item_id", VNull)])%list) (tbl_rows tb)).


Definition delivery_cols : list column :=
  [col "seller_id" AInteger true; col "catalog_id" AInteger true;
   col "quantity" AInteger true].


(** The delivery table as [schema_script] declares it, holding [rows]. *)
Definition delivery_table (rows : list row) : table :=
  mkTable "delivery" delivery_cols ["seller_id"; "catalog_id"] rows.

(** The delivery table exists with the columns and key of the schema. *)
Definition delivery_declared (db : database) : Prop :=
  exists rows, db_get db Delivery = Some (delivery_table rows).

Definition delivery_row (s c q : Z) : row :=
  [("seller_id", VInt s); ("catalog_id", VInt c); ("quantity", VInt q)].

Definition is_pair (s c : Z) (r : row) : bool :=
  value_eqb (field "seller_id" r) (VInt s)
  && value_eqb (field "catalog_id" r) (VInt c).

(** The delivery rows stored for the pair [(s, c)]. *)
Definition rows_for (s c : Z) (db : database) : list row :=
  match db_get db Delivery with
  | Some tb => filter (is_pair s c) (tbl_rows tb)
  | None => []
  end.

(** The UPDATE of the upsert, row by row. *)
Definition add_quantity (s c q : Z) (r : row) : row :=
  if is_pair s c r
  then set_field "quantity"
         (apply_affinity AInteger (sql_add (field "quantity" r) (VInt q))) r
  else r.



(** The states the file can be in: it starts without tables and changes
    only through the three writers. *)
Inductive reachable : database -> Prop :=
| reach_start : reachable empty_database
| reach_init db : reachable db -> reachable (snd (init_db db))
| reach_insert table payload db :
    reachable db -> reachable (snd (insert_row table payload db))
| reach_upsert payload db :
    reachable db -> reachable (snd (insert_or_add_delivery payload db)).


(** *** The invariant behind key uniqueness *)






(** ** Requests served at the same time

    Each request runs [insert_or_add_delivery] on a connection of its own.
    The engine executes one statement at a time.  The SELECT runs outside a
    transaction; the transaction that the binding opens for the UPDATE or
    INSERT lasts until the [commit] (or [rollback]) that follows it, and a
    second writer waits for its end.  A request therefore takes two atomic
    steps, between which other requests may run. *)
Inductive request : Type :=
| Ready (payload : dict)
| Selected (payload : dict) (found : option row)
| Returned (r : bool * string).

Definition request_step (rq : request) (db : database) : request * database :=
  match rq with
  | Ready payload =>
      if missing_required payload
      then (Returned (false, required_message), db)
      else
        match delivery_select payload (get_connection db) with
        | (Ok found, _) => (Selected payload found, db)
        | (Raise msg, _) => (Returned (false, msg), db)
        end
  | Selected payload found =>
      let (r, db') := try_write (delivery_write payload found ;;; commit) db in
      (Returned r, db')
  | Returned r => (Returned r, db)
  end.

Fixpoint set_nth {A : Type} (i : nat) (x : A) (l : list A) : list A :=
  match l, i with
  | [], _ => []
  | _ :: l', O => x :: l'
  | y :: l', S i' => y :: set_nth i' x l'
  end.

(** A schedule names, step after step, the request that runs next. *)
Fixpoint run_schedule (schedule : list nat) (rqs : list request) (db : database)
  : list request * database :=
  match schedule with
  | [] => (rqs, db)
  | i :: schedule' =>
      match nth_error rqs i with
      | Some rq =>
          let (rq', db') := request_step rq db in
          run_schedule schedule' (set_nth i rq' rqs) db'
      | None => run_schedule schedule' rqs db
      end
  end.

(** ** The HTTP handlers

    A handler returns the pair that Flask turns into a response: the value
    passed to [jsonify] and the status code (200 when the handler gives
    none).  An exception that a handler does not catch propagates to the
    framework.  The body of a PUT is what [request.json] yields for a JSON
    object, or [None] for a JSON [null]; other JSON bodies are not
    modelled. *)
#[local] Unset Elimination Schemes.
Inductive json : Type :=
| JNull
| JBool (b : bool)
| JInt (z : Z)
| JString (s : string)
| JArray (l : list json)
| JObject (o : list (string * json)).
#[local] Set Elimination Schemes.

Definition json_of_value (v : value) : json :=
  match v with
  | VNull => JNull
  | VInt z => JInt z
  | VText s => JString s
  end.

Definition json_of_dict (d : dict) : json :=
  JObject (map (fun kv => (fst kv, json_of_value (snd kv))) d).

Record response : Type := mkResponse {
  body : json;
  status : Z
}.

(** [return jsonify(get_all(table))] *)
Definition all_handler (table : table_id) (db : database) : result response :=
  match get_all table db with
  | Ok rows => Ok (mkResponse (JArray (map json_of_dict rows)) 200)
  | Raise msg => Raise msg
  end.


(** [return jsonify(get_column_values(table, column))] *)
Definition column_handler (table : table_id) (column : string) (db : database)
  : result response :=
  match get_column_values table column db with
  | Ok vs => Ok (mkResponse (JArray (map json_of_value vs)) 200)
  | Raise msg => Raise msg
  end.




Definition customers_all := all_handler Customer.
Definition customers_ids := column_handler Customer "id".
Definition customers_names := column_handler Customer "name".

Definition sellers_all := all_handler Seller.
Definition sellers_ids := column_handler Seller "id".
Definition sellers_nations := column_handler Seller "nation".

Definition catalog_all := all_handler Catalog.
Definition catalog_ids := column_handler Catalog "id".
Definition catalog_names := column_handler Catalog "name".
Definition catalog_colors := column_handler Catalog "color".

Definition orders_all := all_handler Order.
Definition orders_ids := column_handler Order "id".
Definition orders_dates := column_handler Order "date".

Definition order_items_all := all_handler OrderItem.
Definition order_items_quantities := column_handler OrderItem "quantity".

Definition deliveries_all := all_handler Delivery.
Definition deliveries_quantities := column_handler Delivery "quantity".




Definition column_routes
  : list (table_id * string * (database -> result response)
          * (database -> result response)) :=
  [(Customer, "id", customers_ids, customers_all);
   (Customer, "name", customers_names, customers_all);
   (Seller, "id", sellers_ids, sellers_all);
   (Seller, "nation", sellers_nations, sellers_all);
   (Catalog, "id", catalog_ids, catalog_all);
   (Catalog, "name", catalog_names, catalog_all);
   (Catalog, "color", catalog_colors, catalog_all);
   (Order, "id", orders_ids, orders_all);
   (Order, "date", orders_dates, orders_all);
   (OrderItem, "quantity", order_items_quantities, order_items_all);
   (Delivery, "quantity", deliveries_quantities, deliveries_all)].

(** ** Further notions *)


(** Every key of the payload is, letter for letter, a column of the table. *)
Definition keys_are_columns (payload : dict) (tb : table) : bool :=
  forallb (fun k => has_col k tb) (dict_keys payload).

(** [db'] keeps every table of [db] with at least as many rows. *)
Definition grows (db db' : database) : Prop :=
  forall t tb,
    db_get db t = Some tb ->
    exists tb', db_get db' t = Some tb'
                /\ (List.length (tbl_rows tb) <= List.length (tbl_rows tb'))%nat.

Definition conn_grows (db0 : database) (c : connection) : Prop :=
  grows db0 (disk c) /\ grows db0 (view c).

Definition advances {A : Type} (m : sql A) : Prop :=
  forall db0 c, conn_grows db0 c -> conn_grows db0 (snd (m c)).

(** Statements that leave the committed file alone. *)
Definition keeps_disk {A : Type} (m : sql A) : Prop :=
  forall c, disk (snd (m c)) = disk c.

(** Code that, when it raises, has left the committed file alone. *)
Definition fails_clean {A : Type} (m : sql A) : Prop :=
  forall c msg c', m c = (Raise msg, c') -> disk c' = disk c.




(** ** Basic facts about values, dictionaries and the engine *)

Lemma value_eqb_eq (a b : value) : value_eqb a b = true <-> a = b.
Proof.
  destruct a, b; simpl; split; intros H; try discriminate; try reflexivity.
  - apply Z.eqb_eq in H. now subst.
  - inversion H. apply Z.eqb_refl.
  - apply String.eqb_eq in H. now subst.
  - inversion H. apply String.eqb_refl.
Qed.


Lemma has_key_dict_get (k : string) (d : dict) :
  has_key k d = match dict_get k d with Some _ => true | None => false end.
Proof.
  unfold has_key, dict_keys.
  induction d as [|[k' v] d IH]; simpl; [reflexivity|].
  destruct (String.eqb k k'); simpl; [reflexivity | exact IH].
Qed.

Lemma field_singleton (c : string) (v : value) : field c [(c, v)] = v.
Proof. unfold field. simpl. now rewrite String.eqb_refl. Qed.




Lemma filter_all {A : Type} (f : A -> bool) (l : list A) :
  (forall x, In x l -> f x = true) -> filter f l = l.
Proof.
  induction l as [|x l IH]; simpl; intros H; [reflexivity|].
  rewrite (H x) by now left. f_equal. apply IH. intros y Hy. apply H. now right.
Qed.

Lemma db_get_set_same (db : database) (t : table_id) (tb : table) :
  db_get (db_set db t tb) t = Some tb.
Proof. destruct db, t; reflexivity. Qed.

Lemma db_get_set_other (db : database) (t t' : table_id) (tb : table) :
  t <> t' -> db_get (db_set db t tb) t' = db_get db t'.
Proof. destruct db, t, t'; intros H; try reflexivity; now contradiction H. Qed.

(** ** Connections *)

Lemma bind_ok {A B : Type} (m : sql A) (k : A -> sql B) (c c' : connection) (a : A) :
  m c = (Ok a, c') -> bind m k c = k a c'.
Proof. unfold bind. now intros ->. Qed.

Lemma bind_raise {A B : Type} (m : sql A) (k : A -> sql B) (c c' : connection)
      (msg : string) :
  m c = (Raise msg, c') -> bind m k c = (Raise msg, c').
Proof. unfold bind. now intros ->. Qed.

Lemma modify_disk (t : table_id) (stmt : table -> result table) (c : connection) :
  disk (snd (modify t stmt c)) = disk c.
Proof.
  unfold modify. destruct (db_get (view c) t) as [tb|]; [|reflexivity].
  destruct (stmt tb); reflexivity.
Qed.

(** ** Readers *)

Lemma get_all_rows (t : table_id) (db : database) (tb : table) :
  db_get db t = Some tb -> get_all t db = Ok (tbl_rows tb).
Proof.
  intros H. unfold get_all, execute_select_all, query, get_connection. simpl.
  now rewrite H.
Qed.

Lemma get_column_values_rows (t : table_id) (c : string) (db : database) (tb : table) :
  db_get db t = Some tb ->
  has_col c tb = true ->
  get_column_values t c db = Ok (map (field c) (tbl_rows tb)).
Proof.
  intros Ht Hc.
  unfold get_column_values, execute_select_column, query, bind, ret,
    get_connection. simpl. rewrite Ht.
  unfold select_column, select_where, missing_col. simpl. rewrite Hc. simpl.
  f_equal. unfold rows_to_list. rewrite map_map.
  rewrite filter_all by reflexivity.
  apply map_ext. intros r. apply field_singleton.
Qed.

(** C4. After [init_db] on a file without tables, [get_all] on customer
    returns Alice, Bob and Carol with ids 1, 2, 3 in that order, and
    [get_all] on delivery returns (1,1,100), (1,2,50), (2,3,70) in that
    order. *)
Theorem seed_literal_scenario :
  fst (init_db empty_database) = Ok tt
  /\ get_all Customer (snd (init_db empty_database)) =
     Ok [[("id", VInt 1); ("name", VText "Alice")];
         [("id", VInt 2); ("name", VText "Bob")];
         [("id", VInt 3); ("name", VText "Carol")]]
  /\ get_all Delivery (snd (init_db empty_database)) =
     Ok [delivery_row 1 1 100; delivery_row 1 2 50; delivery_row 2 3 70].
Proof. repeat split; vm_compute; reflexivity. Qed.

(** C5. [insert_row] with an empty payload fails with "Empty payload" and
    returns the file as it was, for every table; [insert_or_add_delivery]
    with one of seller_id, catalog_id, quantity absent fails with the
    required-fields message and returns the file as it was. *)
Theorem validation_leaves_store :
  (forall (t : table_id) (db : database),
      insert_row t [] db = ((false, "Empty payload"), db))
  /\ (forall (payload : dict) (db : database) (k : string),
         In k required ->
         dict_get k payload = None ->
         insert_or_add_delivery payload db = ((false, required_message), db)).
Proof.
  split; [reflexivity|].
  intros payload db k Hk Hnone.
  unfold insert_or_add_delivery, missing_required.
  assert (Hf : forallb (fun k0 => has_key k0 payload) required = false).
  { apply not_true_is_false. intros Hall.
    rewrite forallb_forall in Hall. specialize (Hall k Hk).
    rewrite has_key_dict_get, Hnone in Hall. discriminate. }
  now rewrite Hf.
Qed.

Lemma validation_leaves_store_witness :
  insert_or_add_delivery [("seller_id", VInt 1); ("quantity", VInt 5)] seeded
  = ((false, required_message), seeded).
Proof.
  apply (proj2 validation_leaves_store _ _ "catalog_id").
  - simpl. tauto.
  - reflexivity.
Defined.

(** C6. When the engine rejects the INSERT built from a non-empty payload,
    [insert_row] returns [(False, msg)] with the engine's message and the
    file is what it was before the call. *)
Theorem rejected_insert_rolls_back :
  forall (t : table_id) (payload : dict) (db : database) (msg : string),
    payload <> [] ->
    fst (execute_insert t (dict_keys payload) (dict_values payload)
           (get_connection db)) = Raise msg ->
    insert_row t payload db = ((false, msg), db).
Proof.
  intros t payload db msg Hne Hrej.
  unfold insert_row. destruct payload as [|kv payload']; [now contradiction Hne|].
  unfold try_write, bind.
  destruct (execute_insert t (dict_keys (kv :: payload'))
              (dict_values (kv :: payload')) (get_connection db))
    as [[u|m] conn] eqn:E; simpl in Hrej; [discriminate|].
  inversion Hrej; subst m. simpl. unfold close. do 2 f_equal.
  change conn with (snd (Raise (A:=unit) msg, conn)). rewrite <- E.
  apply modify_disk.
Qed.

Lemma rejected_insert_rolls_back_witness :
  insert_row Customer [("id", VInt 1); ("name", VText "Dan")] seeded
  = ((false, "UNIQUE constraint failed: customer.id"), seeded).
Proof.
  apply rejected_insert_rolls_back.
  - discriminate.
  - vm_compute. reflexivity.
Defined.



(** C8. Whenever the catalog table exists with a [name] column,
    [get_column_values] on catalog and name returns the name of each row
    returned by [get_all] on catalog, in the same order. *)
Theorem column_projection_order :
  forall (db : database) (tb : table),
    db_get db Catalog = Some tb ->
    has_col "name" tb = true ->
    exists rows,
      get_all Catalog db = Ok rows
      /\ get_column_values Catalog "name" db = Ok (map (field "name") rows).
Proof.
  intros db tb Ht Hc. exists (tbl_rows tb). split.
  - now apply get_all_rows.
  - now apply get_column_values_rows.
Qed.

Lemma column_projection_order_witness :
  exists rows,
    get_all Catalog seeded = Ok rows
    /\ get_column_values Catalog "name" seeded = Ok (map (field "name") rows).
Proof.
  apply (column_projection_order seeded
           (mkTable "catalog"
              [col "id" AInteger false; col "name" AText true;
               col "color" AText true] ["id"]
              [[("id", VInt 1); ("name", VText "T-Shirt"); ("color", VText "red")];
               [("id", VInt 2); ("name", VText "T-Shirt"); ("color", VText "blue")];
               [("id", VInt 3); ("name", VText "Shoes"); ("color", VText "black")]])).
  - reflexivity.
  - reflexivity.
Defined.

(** C10. [insert_or_add_delivery] reads only seller_id, catalog_id and
    quantity: two payloads that agree on these three keys give the same
    outcome and the same file.  A successful call returns "inserted" whether
    it took the INSERT branch (pair (9,9), absent from the seeded file) or
    the UPDATE branch (pair (1,1), present in it). *)
Theorem upsert_reads_three_fields :
  (forall (p1 p2 : dict) (db : database),
      (forall k, In k required -> dict_get k p1 = dict_get k p2) ->
      insert_or_add_delivery p1 db = insert_or_add_delivery p2 db)
  /\ (forall (payload : dict) (db db' : database) (msg : string),
         insert_or_add_delivery payload db = ((true, msg), db') ->
         msg = "inserted")
  /\ (rows_for 9 9 seeded = []
      /\ fst (insert_or_add_delivery (delivery_payload 9 9 5) seeded)
         = (true, "inserted"))
  /\ (rows_for 1 1 seeded = [delivery_row 1 1 100]
      /\ fst (insert_or_add_delivery (delivery_payload 1 1 50) seeded)
         = (true, "inserted")).
Proof.
  split; [|split; [|split; split; vm_compute; reflexivity]].
  - intros p1 p2 db Hagree.
    assert (Hs : dict_get "seller_id" p1 = dict_get "seller_id" p2)
      by (apply Hagree; simpl; tauto).
    assert (Hc : dict_get "catalog_id" p1 = dict_get "catalog_id" p2)
      by (apply Hagree; simpl; tauto).
    assert (Hq : dict_get "quantity" p1 = dict_get "quantity" p2)
      by (apply Hagree; simpl; tauto).
    unfold insert_or_add_delivery, missing_required, delivery_select,
      delivery_write, delivery_key, required, field.
    simpl forallb. rewrite !has_key_dict_get, Hs, Hc, Hq. reflexivity.
  - intros payload db db' msg.
    unfold insert_or_add_delivery, try_write.
    destruct (missing_required payload); [discriminate|].
    match goal with
    | |- context [match ?m ?c with _ => _ end] => destruct (m c) as [[u|e] conn]
    end; intros H; inversion H; reflexivity.
Qed.

Lemma upsert_reads_three_fields_witness :
  insert_or_add_delivery
    (delivery_payload 1 1 5 ++ [("note", VText "urgent")])%list seeded
  = insert_or_add_delivery
      (("id", VInt 7) :: delivery_payload 1 1 5) seeded.
Proof.
  apply (proj1 upsert_reads_three_fields).
  intros k Hk. simpl in Hk.
  destruct Hk as [H|[H|[H|[]]]]; subst k; reflexivity.
Defined.

(** ** The initializer on a seeded file *)

Lemma already_seeded_spec (db : database) :
  already_seeded db = true ->
  forall t, exists tb, db_get db t = Some tb /\ tbl_rows tb <> [].
Proof.
  unfold already_seeded. rewrite forallb_forall. intros H t.
  assert (Hin : In t all_tables) by (destruct t; simpl; tauto).
  specialize (H t Hin). destruct (db_get db t) as [tb|]; [|discriminate].
  exists tb. split; [reflexivity|].
  destruct (tbl_rows tb); [discriminate | discriminate].
Qed.

Lemma create_if_not_exists_present (t : table_id) (cols : list column)
      (pk : list string) (d : database) (tb : table) :
  db_get d t = Some tb -> create_if_not_exists t cols pk d = d.
Proof. unfold create_if_not_exists. now intros ->. Qed.

Lemma schema_script_present (d : database) :
  (forall t, exists tb, db_get d t = Some tb) -> schema_script d = d.
Proof.
  intros H. unfold schema_script.
  destruct (H Customer) as [t1 H1]. destruct (H Seller) as [t2 H2].
  destruct (H Catalog) as [t3 H3]. destruct (H Order) as [t4 H4].
  destruct (H OrderItem) as [t5 H5]. destruct (H Delivery) as [t6 H6].
  rewrite (create_if_not_exists_present _ _ _ _ _ H1).
  rewrite (create_if_not_exists_present _ _ _ _ _ H2).
  rewrite (create_if_not_exists_present _ _ _ _ _ H3).
  rewrite (create_if_not_exists_present _ _ _ _ _ H4).
  rewrite (create_if_not_exists_present _ _ _ _ _ H5).
  now rewrite (create_if_not_exists_present _ _ _ _ _ H6).
Qed.

Lemma seed_nonempty (t : table_id) (cols : list string)
      (params : list (list value)) (c : connection) (tb : table) :
  db_get (view c) t = Some tb ->
  tbl_rows tb <> [] ->
  seed t cols params c = (Ok tt, c).
Proof.
  intros Ht Hne. unfold seed, table_empty, execute_count, query, bind, ret.
  rewrite Ht. destruct (tbl_rows tb) as [|r rs]; [now contradiction Hne|].
  reflexivity.
Qed.

Lemma init_db_seeded_file (db : database) (o : table) :
  (forall t, exists tb, db_get db t = Some tb /\ tbl_rows tb <> []) ->
  db_get db Order = Some o ->
  init_db db = (Ok tt, db_set db Order (migrated_order o)).
Proof.
  intros Hall Ho.
  assert (Hex : forall t, exists tb, db_get db t = Some tb).
  { intros t. destruct (Hall t) as [tb [H _]]. now exists tb. }
  assert (Hview : forall t, exists tb,
             db_get (db_set db Order (migrated_order o)) t = Some tb
             /\ tbl_rows tb <> []).
  { intros t. destruct t;
      try (rewrite db_get_set_other by discriminate; apply Hall).
    rewrite db_get_set_same. exists (migrated_order o). split; [reflexivity|].
    destruct (Hall Order) as [tb [H Hne]]. rewrite Ho in H. inversion H; subst tb.
    unfold migrated_order. destruct (has_col "item_id" o); [exact Hne|].
    simpl. destruct (tbl_rows o); [now contradiction Hne | discriminate]. }
  set (c2 := mkConnection (db_set db Order (migrated_order o))
                          (db_set db Order (migrated_order o)) false).
  assert (Hseeds : forall t cols params, seed t cols params c2 = (Ok tt, c2)).
  { intros t cols params. destruct (Hview t) as [tb [H Hne]].
    now apply (seed_nonempty t cols params c2 tb). }
  assert (H0 : executescript_schema (get_connection db)
               = (Ok tt, get_connection db)).
  { unfold executescript_schema, define, get_connection.
    cbn [view disk in_transaction].
    now rewrite (schema_script_present db Hex). }
  assert (H1 : execute_table_info Order (get_connection db)
               = (Ok (col_names o), get_connection db)).
  { unfold execute_table_info, get_connection. cbn [view]. now rewrite Ho. }
  assert (H2 : (if negb (mem_string "item_id" (col_names o))
                then execute_add_column Order "item_id"
                else ret tt) (get_connection db) = (Ok tt, c2)).
  { assert (Hsame : db_set db Order o = db).
    { destruct db; simpl in *. now rewrite Ho. }
    unfold c2, migrated_order, has_col.
    destruct (mem_string "item_id" (col_names o)) eqn:Hc; cbn [negb].
    - unfold ret, get_connection. now rewrite Hsame.
    - unfold execute_add_column, define, get_connection.
      cbn [view disk in_transaction].
      rewrite Ho. unfold add_column, has_col. rewrite Hc. reflexivity. }
  unfold init_db, init_db_body.
  rewrite (bind_ok _ _ _ _ _ H0), (bind_ok _ _ _ _ _ H1), (bind_ok _ _ _ _ _ H2).
  repeat rewrite (bind_ok _ _ _ _ _ (Hseeds _ _ _)).
  reflexivity.
Qed.

(** C3. On a file whose six tables all hold rows, [init_db] succeeds and
    leaves the row count of every table as it was; no table is seeded.  Only
    the order table can change, and only when it lacks the [item_id] column:
    the column is then appended and every row keeps its fields, reading
    NULL in the new one.  Run on the file it has just seeded, [init_db]
    returns that file. *)
Theorem init_db_idempotent :
  (forall db : database,
      already_seeded db = true ->
      exists db',
        init_db db = (Ok tt, db')
        /\ (forall t, row_count db' t = row_count db t)
        /\ (forall t, t <> Order -> db_get db' t = db_get db t)
        /\ (forall o, db_get db Order = Some o ->
                      db_get db' Order = Some (migrated_order o)
                      /\ (has_col "item_id" o = true -> db' = db)))
  /\ init_db seeded = (Ok tt, seeded).
Proof.
  split; [|vm_compute; reflexivity].
  intros db Hseeded.
  pose proof (already_seeded_spec db Hseeded) as Hall.
  destruct (Hall Order) as [o [Ho Hne]].
  exists (db_set db Order (migrated_order o)).
  split; [now apply init_db_seeded_file|].
  split; [|split].
  - intros t. unfold row_count. destruct t;
      try (now rewrite db_get_set_other by discriminate).
    rewrite db_get_set_same, Ho. unfold migrated_order.
    destruct (has_col "item_id" o); [reflexivity|].
    simpl. apply length_map.
  - intros t Ht. apply db_get_set_other. congruence.
  - intros o' Ho'. rewrite Ho in Ho'. inversion Ho'; subst o'.
    split; [apply db_get_set_same|].
    intros Hc. unfold migrated_order. rewrite Hc.
    destruct db; simpl in *. now rewrite Ho.
Qed.

Lemma init_db_idempotent_witness :
  exists db',
    init_db seeded = (Ok tt, db')
    /\ (forall t, row_count db' t = row_count seeded t)
    /\ (forall t, t <> Order -> db_get db' t = db_get seeded t)
    /\ (forall o, db_get seeded Order = Some o ->
                  db_get db' Order = Some (migrated_order o)
                  /\ (has_col "item_id" o = true -> db' = seeded)).
Proof.
  apply (proj1 init_db_idempotent seeded). vm_compute. reflexivity.
Defined.

(** ** The delivery upsert on the declared table *)

Lemma sql_eq_int (v : value) (z : Z) : sql_eq v (VInt z) = value_eqb v (VInt z).
Proof. destruct v; reflexivity. Qed.

Lemma matches_is_pair (rows : list row) (s c q : Z) (r : row) :
  matches (delivery_table rows) (delivery_key (delivery_payload s c q)) r
  = is_pair s c r.
Proof.
  unfold matches, is_pair. cbn. rewrite !sql_eq_int. now rewrite andb_true_r.
Qed.


Lemma filter_nil_forall {A : Type} (f : A -> bool) (l : list A) :
  filter f l = [] -> forall x, In x l -> f x = false.
Proof.
  intros H x Hx. destruct (f x) eqn:E; [|reflexivity].
  assert (Hin : In x (filter f l)) by (apply filter_In; now split).
  rewrite H in Hin. destruct Hin.
Qed.

Lemma existsb_false {A : Type} (f : A -> bool) (l : list A) :
  (forall x, In x l -> f x = false) -> existsb f l = false.
Proof.
  induction l as [|x l IH]; simpl; intros H; [reflexivity|].
  rewrite (H x) by now left. apply IH. intros y Hy. apply H. now right.
Qed.

Lemma key_conflict_pair (s c q : Z) (r : row) :
  key_conflict ["seller_id"; "catalog_id"] (delivery_row s c q) r = is_pair s c r.
Proof.
  unfold key_conflict, is_pair, key_of. cbn.
  destruct (field "seller_id" r), (field "catalog_id" r); cbn;
    rewrite ?andb_false_r, ?andb_true_r; try reflexivity.
  now rewrite (Z.eqb_sym s), (Z.eqb_sym c).
Qed.

Lemma delivery_select_rows (db : database) (rows : list row) (s c q : Z) :
  db_get db Delivery = Some (delivery_table rows) ->
  delivery_select (delivery_payload s c q) (get_connection db)
  = (Ok (fetchone (map (project (Some "quantity")) (filter (is_pair s c) rows))),
     get_connection db).
Proof.
  intros Hd. unfold delivery_select, execute_select_where, query, bind, ret.
  unfold get_connection at 1. cbn [view]. rewrite Hd.
  unfold select_where.
  replace (missing_col _ _) with (@None string) by reflexivity.
  unfold Sqlite.tbl_rows at 1. cbn [tbl_rows delivery_table].
  rewrite (filter_ext _ _ (matches_is_pair rows s c q)).
  reflexivity.
Qed.

(** The INSERT branch: the pair has no row yet. *)
Lemma upsert_absent (db : database) (rows : list row) (s c q : Z) :
  db_get db Delivery = Some (delivery_table rows) ->
  filter (is_pair s c) rows = [] ->
  insert_or_add_delivery (delivery_payload s c q) db
  = ((true, "inserted"),
     db_set db Delivery (delivery_table (rows ++ [delivery_row s c q]))).
Proof.
  intros Hd Hnone.
  unfold insert_or_add_delivery.
  replace (missing_required _) with false by reflexivity.
  unfold try_write.
  rewrite (bind_ok _ _ _ _ _ (delivery_select_rows db rows s c q Hd)).
  rewrite Hnone. cbn [map fetchone hd_error].
  assert (Hins : insert (delivery_table rows)
                   ["seller_id"; "catalog_id"; "quantity"]
                   [field "seller_id" (delivery_payload s c q);
                    field "catalog_id" (delivery_payload s c q);
                    field "quantity" (delivery_payload s c q)]
                 = Ok (delivery_table (rows ++ [delivery_row s c q]))).
  { unfold insert.
    replace (find _ _) with (@None string) by reflexivity.
    replace (assign_rowid _ _) with (Ok (delivery_row s c q)) by reflexivity.
    replace (first_null_notnull _ _) with (@None string) by reflexivity.
    rewrite existsb_false; [reflexivity|].
    intros r Hr. rewrite key_conflict_pair.
    exact (filter_nil_forall _ _ Hnone r Hr). }
  unfold delivery_write, execute_insert, modify, bind, commit, get_connection.
  cbn [view disk]. rewrite Hd, Hins. reflexivity.
Qed.

Lemma dict_get_set_field_other (k c : string) (v : value) (r : row) :
  k <> c -> dict_get k (set_field c v r) = dict_get k r.
Proof.
  intros Hk. induction r as [|[k' x] r IH]; simpl; [reflexivity|].
  destruct (String.eqb c k') eqn:Ec; simpl.
  - apply String.eqb_eq in Ec. subst k'.
    apply String.eqb_neq in Hk. now rewrite Hk.
  - now rewrite IH.
Qed.

Lemma field_set_field_other (k c : string) (v : value) (r : row) :
  k <> c -> field k (set_field c v r) = field k r.
Proof. intros Hk. unfold field. now rewrite dict_get_set_field_other. Qed.

Lemma is_pair_add_quantity (s c q s' c' : Z) (r : row) :
  is_pair s' c' (add_quantity s c q r) = is_pair s' c' r.
Proof.
  unfold add_quantity. destruct (is_pair s c r); [|reflexivity].
  unfold is_pair. now rewrite !field_set_field_other by discriminate.
Qed.

Lemma filter_map_commute {A : Type} (f : A -> bool) (g : A -> A) (l : list A) :
  (forall x, f (g x) = f x) -> filter f (map g l) = map g (filter f l).
Proof.
  intros H. induction l as [|x l IH]; simpl; [reflexivity|].
  rewrite H. destruct (f x); simpl; now rewrite IH.
Qed.



Lemma rows_for_set (db : database) (rows : list row) (s c : Z) :
  rows_for s c (db_set db Delivery (delivery_table rows))
  = filter (is_pair s c) rows.
Proof. unfold rows_for. now rewrite db_get_set_same. Qed.




(** ** Composite keys stay unique *)



Lemma first_null_notnull_none (tb : table) (r : row) (cl : column) :
  first_null_notnull tb r = None ->
  In cl (tbl_cols tb) ->
  col_notnull cl = true ->
  field (col_name cl) r <> VNull.
Proof.
  unfold first_null_notnull. intros H Hin Hnn Hnull.
  destruct (find _ (tbl_cols tb)) as [x|] eqn:E; [discriminate|].
  pose proof (find_none _ _ E cl Hin) as Hf. cbv beta in Hf.
  rewrite Hnn, Hnull in Hf. discriminate.
Qed.





























(** ** Two requests at the same time *)

Lemma delivery_select_conn (payload : dict) (c : connection) :
  snd (delivery_select payload c) = c.
Proof.
  unfold delivery_select, execute_select_where, query, bind, ret.
  destruct (db_get (view c) Delivery) as [tb|]; [|reflexivity].
  destruct (select_where tb (Some "quantity") (delivery_key payload));
    reflexivity.
Qed.

(** A request that takes its two steps without interruption is a call of
    [insert_or_add_delivery]. *)
Lemma request_steps_serial (payload : dict) (db : database) :
  let (rq1, db1) := request_step (Ready payload) db in
  let (rq2, db2) := request_step rq1 db1 in
  (rq2, db2) = (Returned (fst (insert_or_add_delivery payload db)),
                snd (insert_or_add_delivery payload db)).
Proof.
  unfold insert_or_add_delivery. cbn [request_step].
  destruct (missing_required payload); [reflexivity|].
  pose proof (delivery_select_conn payload (get_connection db)) as Hconn.
  destruct (delivery_select payload (get_connection db)) as [[found|msg] conn] eqn:E;
    simpl in Hconn; subst conn.
  - cbn [request_step]. unfold try_write.
    rewrite (bind_ok _ _ _ _ _ E).
    destruct ((delivery_write payload found ;;; commit) (get_connection db))
      as [[u|msg] c1]; reflexivity.
  - unfold try_write. rewrite (bind_raise _ _ _ _ _ E). reflexivity.
Qed.

(** C9. Two requests [insert_or_add_delivery] for the pair (9,9), absent
    from the seeded file, each with quantity 1.  When both run their SELECT
    before either writes, both take the INSERT branch: the first commits,
    the second is rejected on the primary key and returns failure, and the
    stored quantity is 1, not 2.  Run one after the other, the same two
    requests leave 2.  On the pair (1,1), stored with 100, the same
    interleaving sends both requests to the UPDATE branch and leaves 102. *)
Theorem concurrent_upsert_conflict :
  let p := delivery_payload 9 9 1 in
  let interleaved := [0; 1; 0; 1]%nat in
  let serial := [0; 0; 1; 1]%nat in
  rows_for 9 9 seeded = []
  /\ fst (run_schedule interleaved [Ready p; Ready p] seeded)
     = [Returned (true, "inserted");
        Returned (false,
                  "UNIQUE constraint failed: delivery.seller_id, delivery.catalog_id")]
  /\ rows_for 9 9 (snd (run_schedule interleaved [Ready p; Ready p] seeded))
     = [delivery_row 9 9 1]
  /\ fst (run_schedule serial [Ready p; Ready p] seeded)
     = [Returned (true, "inserted"); Returned (true, "inserted")]
  /\ rows_for 9 9 (snd (run_schedule serial [Ready p; Ready p] seeded))
     = [delivery_row 9 9 2]
  /\ rows_for 1 1
       (snd (run_schedule interleaved
               [Ready (delivery_payload 1 1 1); Ready (delivery_payload 1 1 1)]
               seeded))
     = [delivery_row 1 1 102].
Proof. repeat split; vm_compute; reflexivity. Qed.

(** ** What a write changes *)

Lemma insert_ok_inv (tb tb' : table) (cols : list string) (vals : list value) :
  insert tb cols vals = Ok tb' ->
  exists r,
    assign_rowid tb (bound_row tb cols vals) = Ok r
    /\ first_null_notnull tb r = None
    /\ existsb (key_conflict (tbl_pk tb) r) (tbl_rows tb) = false
    /\ tb' = with_rows tb (place_row tb r).
Proof.
  unfold insert. destruct (find _ cols); [discriminate|].
  destruct (assign_rowid tb (bound_row tb cols vals)) as [r|]; [|discriminate].
  destruct (first_null_notnull tb r) eqn:Hnull; [discriminate|].
  destruct (existsb (key_conflict (tbl_pk tb) r) (tbl_rows tb)) eqn:Hc;
    [discriminate|].
  intros H. inversion H. exists r. auto.
Qed.

Lemma insert_by_rowid_length (c : string) (r : row) (rows : list row) :
  List.length (insert_by_rowid c r rows) = S (List.length rows).
Proof.
  induction rows as [|r' rows IH]; simpl; [reflexivity|].
  destruct (int_of_value (field c r) <? int_of_value (field c r')); simpl;
    [reflexivity | now rewrite IH].
Qed.

Lemma place_row_length (tb : table) (r : row) :
  List.length (place_row tb r) = S (List.length (tbl_rows tb)).
Proof.
  unfold place_row. destruct (rowid_alias tb).
  - apply insert_by_rowid_length.
  - rewrite length_app. simpl. apply Nat.add_1_r.
Qed.

Lemma insert_length (tb tb' : table) (cols : list string) (vals : list value) :
  insert tb cols vals = Ok tb' ->
  List.length (tbl_rows tb') = S (List.length (tbl_rows tb)).
Proof.
  intros H. destruct (insert_ok_inv _ _ _ _ H) as [r [_ [_ [_ ->]]]].
  apply place_row_length.
Qed.

Lemma insert_row_cases (t : table_id) (payload : dict) (db : database) :
  (exists msg, insert_row t payload db = ((false, msg), db))
  \/ (exists tb tb',
         payload <> []
         /\ db_get db t = Some tb
         /\ insert tb (dict_keys payload) (dict_values payload) = Ok tb'
         /\ insert_row t payload db = ((true, "inserted"), db_set db t tb')).
Proof.
  destruct payload as [|kv payload'].
  - left. now exists "Empty payload".
  - unfold insert_row, try_write, bind, execute_insert, modify, get_connection.
    cbn [view disk].
    destruct (db_get db t) as [tb|] eqn:Ht.
    + destruct (insert tb (dict_keys (kv :: payload')) (dict_values (kv :: payload')))
        as [tb'|msg] eqn:Hins.
      * right. exists tb, tb'.
        repeat split; try reflexivity; [discriminate | exact Hins].
      * left. now exists msg.
    + left. eexists. reflexivity.
Qed.



(** ** Failure leaves the file alone *)

Lemma keeps_disk_query {A : Type} (t : table_id) (q : table -> result A) :
  keeps_disk (query t q).
Proof. intros c. unfold query. now destruct (db_get (view c) t). Qed.

Lemma keeps_disk_modify (t : table_id) (stmt : table -> result table) :
  keeps_disk (modify t stmt).
Proof. intros c. apply modify_disk. Qed.

Lemma keeps_disk_ret {A : Type} (a : A) : keeps_disk (ret a).
Proof. intros c. reflexivity. Qed.

Lemma keeps_disk_bind {A B : Type} (m : sql A) (k : A -> sql B) :
  keeps_disk m -> (forall a, keeps_disk (k a)) -> keeps_disk (bind m k).
Proof.
  intros Hm Hk c. unfold bind. specialize (Hm c).
  destruct (m c) as [[a|msg] c1]; simpl in *.
  - now rewrite Hk.
  - exact Hm.
Qed.

Lemma fails_clean_commit : fails_clean commit.
Proof. intros c msg c' H. discriminate. Qed.

Lemma fails_clean_bind {A B : Type} (m : sql A) (k : A -> sql B) :
  keeps_disk m -> (forall a, fails_clean (k a)) -> fails_clean (bind m k).
Proof.
  intros Hm Hk c msg c'. unfold bind. specialize (Hm c).
  destruct (m c) as [[a|msg1] c1]; simpl in *.
  - intros H. rewrite <- Hm. now apply (Hk a c1 msg c').
  - intros H. inversion H; subst. exact Hm.
Qed.

Lemma try_write_failure (body : sql unit) (db db' : database) (msg : string) :
  fails_clean body ->
  try_write body db = ((false, msg), db') -> db' = db.
Proof.
  intros Hb. unfold try_write.
  destruct (body (get_connection db)) as [[u|m] conn] eqn:E; [discriminate|].
  intros H. inversion H; subst. unfold close. simpl.
  now rewrite (Hb _ _ _ E).
Qed.

Lemma keeps_disk_delivery_select (payload : dict) :
  keeps_disk (delivery_select payload).
Proof.
  unfold delivery_select, execute_select_where.
  apply keeps_disk_bind; [apply keeps_disk_query | intros; apply keeps_disk_ret].
Qed.

Lemma keeps_disk_delivery_write (payload : dict) (found : option row) :
  keeps_disk (delivery_write payload found).
Proof. destruct found; apply keeps_disk_modify. Qed.

(** X2. Whenever [insert_row] or [insert_or_add_delivery] returns
    [(False, msg)], whatever the reason, the file is the one the call
    started from. *)
Theorem failed_write_changes_nothing :
  (forall (t : table_id) (payload : dict) (db db' : database) (msg : string),
      insert_row t payload db = ((false, msg), db') -> db' = db)
  /\ (forall (payload : dict) (db db' : database) (msg : string),
         insert_or_add_delivery payload db = ((false, msg), db') -> db' = db).
Proof.
  split.
  - intros t payload db db' msg H.
    destruct (insert_row_cases t payload db) as [[m Hf]|[tb [tb' [_ [_ [_ Hs]]]]]].
    + rewrite Hf in H. now inversion H.
    + rewrite Hs in H. discriminate.
  - intros payload db db' msg. unfold insert_or_add_delivery.
    destruct (missing_required payload); [intros H; now inversion H|].
    apply try_write_failure.
    apply fails_clean_bind; [apply keeps_disk_delivery_select|].
    intros found. apply fails_clean_bind;
      [apply keeps_disk_delivery_write | intros; apply fails_clean_commit].
Qed.

Lemma failed_write_changes_nothing_witness :
  snd (insert_or_add_delivery
         [("seller_id", VInt 1); ("catalog_id", VInt 1); ("quantity", VNull)]
         seeded) = seeded.
Proof.
  apply (proj2 failed_write_changes_nothing
           [("seller_id", VInt 1); ("catalog_id", VInt 1); ("quantity", VNull)]
           seeded _ "NOT NULL constraint failed: delivery.quantity").
  vm_compute. reflexivity.
Defined.

(** ** Insert, then look up *)



Lemma combine_keys_values (d : dict) : combine (dict_keys d) (dict_values d) = d.
Proof.
  unfold dict_keys, dict_values.
  induction d as [|[k v] d IH]; simpl; [reflexivity | now rewrite IH].
Qed.

Lemma dict_get_bound_row (tb : table) (cols : list string) (vals : list value)
      (c : string) (cl : column) :
  find_col c tb = Some cl ->
  dict_get c (bound_row tb cols vals)
  = Some (apply_affinity (col_aff cl) (field c (combine cols vals))).
Proof.
  unfold find_col, bound_row.
  induction (tbl_cols tb) as [|x l IH]; simpl; [discriminate|].
  destruct (String.eqb c (col_name x)) eqn:E.
  - intros H. inversion H; subst x. apply String.eqb_eq in E. now subst c.
  - exact IH.
Qed.

Lemma field_bound_row (tb : table) (cols : list string) (vals : list value)
      (c : string) (cl : column) :
  find_col c tb = Some cl ->
  field c (bound_row tb cols vals)
  = apply_affinity (col_aff cl) (field c (combine cols vals)).
Proof.
  intros H. unfold field at 1. now rewrite (dict_get_bound_row _ _ _ _ _ H).
Qed.


Lemma rowid_alias_inv (tb : table) (c : string) :
  rowid_alias tb = Some c ->
  tbl_pk tb = [c]
  /\ exists cl, find_col c tb = Some cl /\ col_aff cl = AInteger.
Proof.
  unfold rowid_alias.
  destruct (tbl_pk tb) as [|c0 [|c1 pk]]; try discriminate.
  destruct (find_col c0 tb) as [[nm [|] nn]|] eqn:E; try discriminate.
  intros H. inversion H; subst c0. split; [reflexivity|].
  eexists. split; [exact E | reflexivity].
Qed.












(** ** Missing tables *)

Lemma upsert_without_table (payload : dict) (db : database) :
  db_get db Delivery = None ->
  missing_required payload = false ->
  insert_or_add_delivery payload db
  = ((false, "no such table: delivery"), db).
Proof.
  intros Ht Hreq. unfold insert_or_add_delivery. rewrite Hreq.
  assert (Hsel : delivery_select payload (get_connection db)
                 = (Raise "no such table: delivery", get_connection db)).
  { unfold delivery_select, execute_select_where, query, bind,
      get_connection. cbn [view]. now rewrite Ht. }
  unfold try_write. now rewrite (bind_raise _ _ _ _ _ Hsel).
Qed.



(** ** Nothing is ever removed *)

Lemma grows_refl (db : database) : grows db db.
Proof. intros t tb H. exists tb. split; [exact H | lia]. Qed.

Lemma grows_trans (d1 d2 d3 : database) :
  grows d1 d2 -> grows d2 d3 -> grows d1 d3.
Proof.
  intros H12 H23 t tb H. destruct (H12 t tb H) as [tb2 [H2 Hle2]].
  destruct (H23 t tb2 H2) as [tb3 [H3 Hle3]]. exists tb3. split; [exact H3 | lia].
Qed.

Lemma table_id_eq_dec (t t' : table_id) : t = t' \/ t <> t'.
Proof. destruct t, t'; (now left) || (right; discriminate). Qed.

Lemma grows_set (d : database) (t : table_id) (tb' : table) :
  (forall tb, db_get d t = Some tb ->
              (List.length (tbl_rows tb) <= List.length (tbl_rows tb'))%nat) ->
  grows d (db_set d t tb').
Proof.
  intros Hle t0 tb0 H0. destruct (table_id_eq_dec t t0) as [<-|Hne].
  - exists tb'. split; [apply db_get_set_same | now apply Hle].
  - exists tb0. split; [now rewrite db_get_set_other | lia].
Qed.

Lemma advances_ret {A : Type} (a : A) : advances (ret a).
Proof. intros db0 c H. exact H. Qed.

Lemma advances_bind {A B : Type} (m : sql A) (k : A -> sql B) :
  advances m -> (forall a, advances (k a)) -> advances (bind m k).
Proof.
  intros Hm Hk db0 c Hc. unfold bind. specialize (Hm db0 c Hc).
  destruct (m c) as [[a|msg] c']; simpl in Hm; [now apply Hk | exact Hm].
Qed.

Lemma advances_commit : advances commit.
Proof. intros db0 c [_ Hv]. split; exact Hv. Qed.

Lemma advances_query {A : Type} (t : table_id) (q : table -> result A) :
  advances (query t q).
Proof. intros db0 c Hc. unfold query. now destruct (db_get (view c) t). Qed.

Lemma advances_table_info (t : table_id) : advances (execute_table_info t).
Proof.
  intros db0 c Hc. unfold execute_table_info. now destruct (db_get (view c) t).
Qed.

Lemma advances_modify (t : table_id) (stmt : table -> result table) :
  (forall tb tb', stmt tb = Ok tb' ->
                  (List.length (tbl_rows tb) <= List.length (tbl_rows tb'))%nat) ->
  advances (modify t stmt).
Proof.
  intros Hstmt db0 c [Hd Hv]. unfold modify.
  destruct (db_get (view c) t) as [tb|] eqn:Ht; [|now split].
  destruct (stmt tb) as [tb'|msg] eqn:Es; [|now split].
  split; [exact Hd|]. cbn [view snd].
  apply (grows_trans _ _ _ Hv). apply grows_set.
  intros tb0 H0. rewrite Ht in H0. inversion H0; subst tb0. now apply Hstmt.
Qed.

Lemma advances_define (f : database -> result database) :
  (forall d d', f d = Ok d' -> grows d d') -> advances (define f).
Proof.
  intros Hf db0 c [Hd Hv]. unfold define.
  destruct (f (view c)) as [d'|msg] eqn:Ef; [|now split].
  pose proof (grows_trans _ _ _ Hv (Hf _ _ Ef)) as Hd'.
  destruct (in_transaction c); split; assumption.
Qed.

Lemma advances_execute_insert (t : table_id) (cols : list string)
      (vals : list value) :
  advances (execute_insert t cols vals).
Proof.
  apply advances_modify. intros tb tb' H. apply insert_length in H. lia.
Qed.

Lemma update_add_length (tb tb' : table) (c : string) (delta : value)
      (cond : list (string * value)) :
  update_add tb c delta cond = Ok tb' ->
  List.length (tbl_rows tb') = List.length (tbl_rows tb).
Proof.
  unfold update_add. destruct (missing_col tb _); [discriminate|].
  destruct (find_col c tb) as [cl|]; [|discriminate].
  destruct (col_notnull cl && _); [discriminate|].
  destruct (mem_string c (tbl_pk tb) && _); [discriminate|].
  intros H. inversion H. cbn [tbl_rows with_rows]. apply length_map.
Qed.

Lemma advances_executemany (t : table_id) (cols : list string)
      (params : list (list value)) :
  advances (executemany t cols params).
Proof.
  induction params as [|vals rest IH]; simpl.
  - apply advances_ret.
  - apply advances_bind; [apply advances_execute_insert | intros _; exact IH].
Qed.

Lemma advances_seed (t : table_id) (cols : list string)
      (params : list (list value)) :
  advances (seed t cols params).
Proof.
  unfold seed, table_empty, execute_count.
  apply advances_bind.
  - apply advances_bind; [apply advances_query | intros; apply advances_ret].
  - intros [|]; [apply advances_executemany | apply advances_ret].
Qed.

Lemma grows_create_if_not_exists (t : table_id) (cols : list column)
      (pk : list string) (d : database) :
  grows d (create_if_not_exists t cols pk d).
Proof.
  unfold create_if_not_exists. destruct (db_get d t) eqn:E.
  - apply grows_refl.
  - apply grows_set. intros tb H. rewrite E in H. discriminate.
Qed.

Lemma grows_schema_script (d : database) : grows d (schema_script d).
Proof.
  unfold schema_script.
  repeat (eapply grows_trans; [|apply grows_create_if_not_exists]).
  apply grows_refl.
Qed.

Lemma advances_add_column (t : table_id) (c : string) :
  advances (execute_add_column t c).
Proof.
  apply advances_define. intros d d'.
  destruct (db_get d t) as [tb|] eqn:Ht; [|discriminate].
  unfold add_column. destruct (has_col c tb); [discriminate|].
  intros H. inversion H; subst d'. apply grows_set.
  intros tb0 H0. rewrite Ht in H0. inversion H0; subst tb0.
  cbn [tbl_rows]. rewrite length_map. apply Nat.le_refl.
Qed.

Lemma advances_init_db_body : advances init_db_body.
Proof.
  unfold init_db_body.
  apply advances_bind.
  { apply advances_define. intros d d' H. inversion H; subst d'.
    apply grows_schema_script. }
  intros _. apply advances_bind; [apply advances_table_info|].
  intros columns. apply advances_bind.
  { destruct (negb (mem_string "item_id" columns));
      [apply advances_add_column | apply advances_ret]. }
  intros _.
  repeat (apply advances_bind; [apply advances_seed | intros _]).
  apply advances_commit.
Qed.

Lemma try_write_grows (body : sql unit) (db : database) :
  advances body -> grows db (snd (try_write body db)).
Proof.
  intros Hb. unfold try_write.
  assert (H0 : conn_grows db (get_connection db))
    by (split; apply grows_refl).
  pose proof (Hb db _ H0) as H.
  destruct (body (get_connection db)) as [[u|msg] conn]; simpl in *;
    exact (proj1 H).
Qed.

Lemma init_db_grows (db : database) : grows db (snd (init_db db)).
Proof.
  unfold init_db.
  assert (H0 : conn_grows db (get_connection db))
    by (split; apply grows_refl).
  pose proof (advances_init_db_body db _ H0) as H.
  destruct (init_db_body (get_connection db)) as [r conn]. simpl in *.
  exact (proj1 H).
Qed.

Lemma insert_row_grows (t : table_id) (payload : dict) (db : database) :
  grows db (snd (insert_row t payload db)).
Proof.
  unfold insert_row. destruct payload as [|kv p]; [apply grows_refl|].
  apply try_write_grows.
  apply advances_bind; [apply advances_execute_insert|].
  intros _. apply advances_commit.
Qed.

Lemma insert_or_add_delivery_grows (payload : dict) (db : database) :
  grows db (snd (insert_or_add_delivery payload db)).
Proof.
  unfold insert_or_add_delivery.
  destruct (missing_required payload); [apply grows_refl|].
  apply try_write_grows.
  apply advances_bind.
  { unfold delivery_select, execute_select_where.
    apply advances_bind; [apply advances_query | intros; apply advances_ret]. }
  intros found. apply advances_bind; [|intros _; apply advances_commit].
  destruct found as [r|]; unfold delivery_write.
  - apply advances_modify. intros tb tb' H.
    apply update_add_length in H. lia.
  - apply advances_execute_insert.
Qed.

(** X7. None of the three writers removes anything: after [init_db],
    [insert_row] or [insert_or_add_delivery], whether it succeeded or not,
    every table that existed still exists and holds at least as many rows
    as before. *)
Theorem writers_never_remove :
  forall db : database,
    grows db (snd (init_db db))
    /\ (forall t payload, grows db (snd (insert_row t payload db)))
    /\ (forall payload, grows db (snd (insert_or_add_delivery payload db))).
Proof.
  intros db. split; [apply init_db_grows|]. split.
  - intros t payload. apply insert_row_grows.
  - intros payload. apply insert_or_add_delivery_grows.
Qed.

(** ** Upserts for several pairs *)

Lemma is_pair_row (s c q s' c' : Z) :
  is_pair s' c' (delivery_row s c q) = (s =? s') && (c =? c').
Proof. reflexivity. Qed.

Lemma is_pair_exclusive (s c s' c' : Z) (r : row) :
  s' <> s \/ c' <> c ->
  is_pair s' c' r = true -> is_pair s c r = false.
Proof.
  unfold is_pair. intros Hne H. apply andb_true_iff in H. destruct H as [H1 H2].
  apply value_eqb_eq in H1. apply value_eqb_eq in H2. rewrite H1, H2. cbn.
  destruct Hne as [Hne|Hne].
  - assert (E : (s' =? s) = false) by now apply Z.eqb_neq. now rewrite E.
  - assert (E : (c' =? c) = false) by now apply Z.eqb_neq.
    rewrite E. apply andb_false_r.
Qed.

Lemma filter_other_append (s c q s' c' : Z) (rows : list row) :
  s' <> s \/ c' <> c ->
  filter (is_pair s' c') (rows ++ [delivery_row s c q])
  = filter (is_pair s' c') rows.
Proof.
  intros Hne. rewrite filter_app. cbn [filter]. rewrite is_pair_row.
  assert (E : (s =? s') && (c =? c') = false).
  { destruct Hne as [Hne|Hne].
    - assert (E : (s =? s') = false) by (apply Z.eqb_neq; congruence).
      now rewrite E.
    - assert (E : (c =? c') = false) by (apply Z.eqb_neq; congruence).
      rewrite E. apply andb_false_r. }
  rewrite E. apply app_nil_r.
Qed.

Lemma filter_other_add_quantity (s c q s' c' : Z) (rows : list row) :
  s' <> s \/ c' <> c ->
  filter (is_pair s' c') (map (add_quantity s c q) rows)
  = filter (is_pair s' c') rows.
Proof.
  intros Hne.
  rewrite filter_map_commute by (intros; apply is_pair_add_quantity).
  rewrite <- (map_id (filter (is_pair s' c') rows)) at 2.
  apply map_ext_in. intros r Hr. apply filter_In in Hr. destruct Hr as [_ Hp].
  unfold add_quantity. now rewrite (is_pair_exclusive s c s' c' r Hne Hp).
Qed.

(** The UPDATE of the upsert on the declared table: rejected when a row of
    the pair would get a NULL quantity, applied to the rows of the pair
    otherwise. *)
Lemma update_delivery_quantity (rows : list row) (s c q : Z) :
  update_add (delivery_table rows) "quantity"
    (field "quantity" (delivery_payload s c q))
    (delivery_key (delivery_payload s c q))
  = if existsb (fun r => value_eqb
                           (apply_affinity AInteger
                              (sql_add (field "quantity" r) (VInt q))) VNull)
               (filter (is_pair s c) rows)
    then Raise "NOT NULL constraint failed: delivery.quantity"
    else Ok (delivery_table (map (add_quantity s c q) rows)).
Proof.
  unfold update_add.
  replace (missing_col _ _) with (@None string) by reflexivity.
  replace (find_col "quantity" _) with (Some (col "quantity" AInteger true))
    by reflexivity.
  replace (mem_string "quantity" _) with false by reflexivity.
  cbn [col_aff col_notnull col andb tbl_rows delivery_table].
  rewrite (filter_ext _ _ (matches_is_pair rows s c q)).
  replace (field "quantity" (delivery_payload s c q)) with (VInt q)
    by reflexivity.
  match goal with
  | |- context [existsb ?f (filter (is_pair s c) rows)] =>
      destruct (existsb f (filter (is_pair s c) rows))
  end; [reflexivity|].
  unfold with_rows. cbn [tbl_name tbl_cols tbl_pk delivery_table].
  unfold delivery_table. do 2 f_equal.
  apply map_ext. intros r. rewrite matches_is_pair. reflexivity.
Qed.

(** The three things an upsert can do to the declared delivery table. *)
Lemma upsert_outcomes (db : database) (rows : list row) (s c q : Z) :
  db_get db Delivery = Some (delivery_table rows) ->
  snd (insert_or_add_delivery (delivery_payload s c q) db) = db
  \/ (filter (is_pair s c) rows = []
      /\ snd (insert_or_add_delivery (delivery_payload s c q) db)
         = db_set db Delivery (delivery_table (rows ++ [delivery_row s c q])))
  \/ snd (insert_or_add_delivery (delivery_payload s c q) db)
     = db_set db Delivery (delivery_table (map (add_quantity s c q) rows)).
Proof.
  intros Hd.
  destruct (filter (is_pair s c) rows) as [|r0 l] eqn:Hf.
  - right. left. split; [reflexivity|].
    now rewrite (upsert_absent db rows s c q Hd Hf).
  - unfold insert_or_add_delivery.
    replace (missing_required _) with false by reflexivity.
    unfold try_write.
    rewrite (bind_ok _ _ _ _ _ (delivery_select_rows db rows s c q Hd)).
    rewrite Hf. cbn [map fetchone hd_error].
    unfold delivery_write, execute_update_add, modify, bind, commit,
      get_connection. cbn [view disk]. rewrite Hd.
    rewrite update_delivery_quantity.
    match goal with
    | |- context [existsb ?f (filter (is_pair s c) rows)] =>
        destruct (existsb f (filter (is_pair s c) rows))
    end.
    + left. reflexivity.
    + right. right. reflexivity.
Qed.

(** X8. An upsert for the pair (s, c) on the declared delivery table leaves
    the rows stored for every other pair, and every other table, exactly as
    they were, whether it succeeds or not. *)
Theorem upsert_touches_one_pair :
  forall (db : database) (s c q : Z),
    delivery_declared db ->
    (forall s' c', s' <> s \/ c' <> c ->
                   rows_for s' c' (snd (insert_or_add_delivery
                                          (delivery_payload s c q) db))
                   = rows_for s' c' db)
    /\ (forall t, t <> Delivery ->
                  db_get (snd (insert_or_add_delivery
                                 (delivery_payload s c q) db)) t
                  = db_get db t).
Proof.
  intros db s c q [rows Hd].
  destruct (upsert_outcomes db rows s c q Hd) as [->|[[_ ->]| ->]].
  - split; reflexivity.
  - split.
    + intros s' c' Hne. rewrite rows_for_set. unfold rows_for. rewrite Hd.
      now apply filter_other_append.
    + intros t Hne. apply db_get_set_other. congruence.
  - split.
    + intros s' c' Hne. rewrite rows_for_set. unfold rows_for. rewrite Hd.
      now apply filter_other_add_quantity.
    + intros t Hne. apply db_get_set_other. congruence.
Qed.

Lemma upsert_touches_one_pair_witness :
  rows_for 1 2 (snd (insert_or_add_delivery (delivery_payload 1 1 50) seeded))
  = rows_for 1 2 seeded.
Proof.
  apply (proj1 (upsert_touches_one_pair seeded 1 1 50
                  (ex_intro _ _ eq_refl))).
  right. discriminate.
Defined.











(** ** The initializer on every file the module produces *)

Lemma already_seeded_intro (db : database) :
  (forall t, exists tb, db_get db t = Some tb /\ tbl_rows tb <> []) ->
  already_seeded db = true.
Proof.
  intros H. unfold already_seeded. apply forallb_forall. intros t _.
  destruct (H t) as [tb [-> Hne]].
  destruct (tbl_rows tb); [now contradiction Hne | reflexivity].
Qed.

Lemma already_seeded_grows (db db' : database) :
  already_seeded db = true -> grows db db' -> already_seeded db' = true.
Proof.
  intros Hs Hg. apply already_seeded_intro. intros t.
  destruct (already_seeded_spec db Hs t) as [tb [Ht Hne]].
  destruct (Hg t tb Ht) as [tb' [Ht' Hle]].
  exists tb'. split; [exact Ht'|].
  destruct (tbl_rows tb); [now contradiction Hne|].
  destruct (tbl_rows tb'); [simpl in Hle; lia | discriminate].
Qed.

Lemma reachable_empty_or_seeded (db : database) :
  reachable db -> db = empty_database \/ already_seeded db = true.
Proof.
  induction 1 as [|db Hr IH|t payload db Hr IH|payload db Hr IH].
  - now left.
  - right. destruct IH as [->|Hs].
    + vm_compute. reflexivity.
    + apply (already_seeded_grows db); [exact Hs|].
      apply init_db_grows.
  - destruct IH as [->|Hs].
    + left.
      destruct (insert_row_cases t payload empty_database)
        as [[m ->]|[tb [tb' [_ [Ht _]]]]]; [reflexivity|].
      destruct t; discriminate.
    + right. apply (already_seeded_grows db); [exact Hs|].
      apply insert_row_grows.
  - destruct IH as [->|Hs].
    + left. destruct (missing_required payload) eqn:E.
      * unfold insert_or_add_delivery. now rewrite E.
      * now rewrite (upsert_without_table payload empty_database eq_refl E).
    + right. apply (already_seeded_grows db); [exact Hs|].
      apply insert_or_add_delivery_grows.
Qed.

(** X10. A file that the module has produced is either without tables or
    has all six tables non-empty, and on every such file [init_db] succeeds
    and leaves all six tables non-empty. *)
Theorem init_db_on_reachable :
  forall db : database,
    reachable db ->
    (db = empty_database \/ already_seeded db = true)
    /\ fst (init_db db) = Ok tt
    /\ already_seeded (snd (init_db db)) = true.
Proof.
  intros db Hr. pose proof (reachable_empty_or_seeded db Hr) as Hcase.
  split; [exact Hcase|].
  destruct Hcase as [->|Hs].
  - split; vm_compute; reflexivity.
  - pose proof (already_seeded_spec db Hs) as Hall.
    destruct (Hall Order) as [o [Ho _]].
    rewrite (init_db_seeded_file db o Hall Ho). cbn [fst snd]. split; [reflexivity|].
    apply (already_seeded_grows db); [exact Hs|].
    pose proof (init_db_grows db) as Hg.
    now rewrite (init_db_seeded_file db o Hall Ho) in Hg.
Qed.

Lemma init_db_on_reachable_witness :
  fst (init_db (snd (insert_row Customer [("name", VText "Dan")] seeded))) = Ok tt.
Proof.
  apply (init_db_on_reachable
           (snd (insert_row Customer [("name", VText "Dan")] seeded))).
  apply reach_insert. apply reach_init. apply reach_start.
Defined.

(** ** A null quantity *)




(** ** The handlers *)






(** X14. For each column handler, when the table exists with that column,
    the handler answers 200 with, row by row and in the same order, the
    column's value of the rows that the table's list handler answers. *)
Theorem column_handlers :
  forall (t : table_id) (c : string) (hc ha : database -> result response),
    In (t, c, hc, ha) column_routes ->
    forall (db : database) (tb : table),
      db_get db t = Some tb ->
      has_col c tb = true ->
      ha db = Ok (mkResponse (JArray (map json_of_dict (tbl_rows tb))) 200)
      /\ hc db
         = Ok (mkResponse
                 (JArray (map (fun r => json_of_value (field c r)) (tbl_rows tb)))
                 200).
Proof.
  intros t c hc ha Hin db tb Ht Hc.
  assert (Hh : hc = column_handler t c /\ ha = all_handler t).
  { simpl in Hin.
    repeat (destruct Hin as [H|Hin]; [inversion H; split; reflexivity|]).
    destruct Hin. }
  destruct Hh as [-> ->]. unfold all_handler, column_handler.
  rewrite (get_all_rows t db tb Ht), (get_column_values_rows t c db tb Ht Hc).
  split; [reflexivity|]. now rewrite map_map.
Qed.

Lemma column_handlers_witness :
  orders_dates seeded
  = Ok (mkResponse (JArray [JString "2026-02-01"; JString "2026-02-02"]) 200).
Proof.
  destruct (column_handlers Order "date" orders_dates orders_all
              (or_intror (or_intror (or_intror (or_intror (or_intror
                 (or_intror (or_intror (or_intror (or_introl eq_refl)))))))))
              seeded _ eq_refl eq_refl) as [_ Hc].
  exact Hc.
Defined.



(** ** What [insert_row] rejects *)

(** X16. On a table whose [id] is the integer primary key, [insert_row]
    with a payload whose keys are columns of the table and whose id is an
    integer that a stored row already has does not succeed, and the file is
    unchanged. *)
Theorem insert_row_duplicate_id :
  forall (t : table_id) (payload : dict) (db : database) (tb : table)
         (n : Z) (r : row),
    db_get db t = Some tb ->
    rowid_alias tb = Some "id" ->
    keys_are_columns payload tb = true ->
    In r (tbl_rows tb) ->
    field "id" r = VInt n ->
    dict_get "id" payload = Some (VInt n) ->
    fst (fst (insert_row t payload db)) = false
    /\ snd (insert_row t payload db) = db.
Proof.
  intros t payload db tb n r Ht Halias _ Hr Hrid Hid.
  destruct (insert_row_cases t payload db) as [[m ->]|[tb0 [tb' [_ [Ht0 [Hins _]]]]]].
  { split; reflexivity. }
  exfalso. rewrite Ht in Ht0. inversion Ht0; subst tb0. clear Ht0.
  destruct (insert_ok_inv _ _ _ _ Hins) as [r1 [Hassign [_ [Hfree _]]]].
  destruct (rowid_alias_inv tb "id" Halias) as [Hpk [cl [Hcl Haff]]].
  assert (Hb : field "id" (bound_row tb (dict_keys payload) (dict_values payload))
               = VInt n).
  { rewrite (field_bound_row _ _ _ _ _ Hcl), combine_keys_values, Haff.
    unfold field. now rewrite Hid. }
  unfold assign_rowid in Hassign. rewrite Halias, Hb in Hassign.
  inversion Hassign; subst r1. clear Hassign.
  assert (Hconf : key_conflict (tbl_pk tb)
                    (bound_row tb (dict_keys payload) (dict_values payload)) r
                  = true).
  { rewrite Hpk. unfold key_conflict, key_of, has_null.
    cbn [map existsb key_eqb]. rewrite Hb, Hrid. cbn. now rewrite Z.eqb_refl. }
  assert (Hex : existsb (key_conflict (tbl_pk tb)
                    (bound_row tb (dict_keys payload) (dict_values payload)))
                  (tbl_rows tb) = true)
    by (apply existsb_exists; now exists r).
  rewrite Hex in Hfree. discriminate.
Qed.

Lemma insert_row_duplicate_id_witness :
  fst (fst (insert_row Customer [("name", VText "Eve"); ("id", VInt 2)] seeded))
  = false
  /\ snd (insert_row Customer [("name", VText "Eve"); ("id", VInt 2)] seeded)
     = seeded.
Proof.
  apply (insert_row_duplicate_id Customer
           [("name", VText "Eve"); ("id", VInt 2)] seeded _ 2
           [("id", VInt 2); ("name", VText "Bob")] eq_refl eq_refl eq_refl).
  - simpl. tauto.
  - reflexivity.
  - reflexivity.
Defined.

(** X17. [insert_row] with a payload whose keys are columns of the table
    but which has no value for a NOT NULL column (other than an integer
    primary key, which the engine assigns) does not succeed, and the file is
    unchanged. *)
Theorem insert_row_missing_required_column :
  forall (t : table_id) (payload : dict) (db : database) (tb : table)
         (c : string) (cl : column),
    db_get db t = Some tb ->
    keys_are_columns payload tb = true ->
    find_col c tb = Some cl ->
    col_notnull cl = true ->
    rowid_alias tb <> Some c ->
    dict_get c payload = None ->
    fst (fst (insert_row t payload db)) = false
    /\ snd (insert_row t payload db) = db.
Proof.
  intros t payload db tb c cl Ht _ Hc Hnn Halias Hnone.
  destruct (insert_row_cases t payload db) as [[m ->]|[tb0 [tb' [_ [Ht0 [Hins _]]]]]].
  { split; reflexivity. }
  exfalso. rewrite Ht in Ht0. inversion Ht0; subst tb0. clear Ht0.
  destruct (insert_ok_inv _ _ _ _ Hins) as [r [Hassign [Hnull _]]].
  assert (Hb : field c (bound_row tb (dict_keys payload) (dict_values payload))
               = VNull).
  { rewrite (field_bound_row _ _ _ _ _ Hc), combine_keys_values.
    unfold field. rewrite Hnone. now destruct (col_aff cl). }
  assert (Hr : field c r = VNull).
  { unfold assign_rowid in Hassign.
    destruct (rowid_alias tb) as [a|] eqn:Ea.
    - destruct (field a (bound_row tb (dict_keys payload) (dict_values payload)));
        inversion Hassign; subst r; try exact Hb.
      rewrite field_set_field_other; [exact Hb|]. congruence.
    - inversion Hassign; subst r. exact Hb. }
  assert (Hin : In cl (tbl_cols tb) /\ col_name cl = c).
  { unfold find_col in Hc. apply find_some in Hc. destruct Hc as [Hin He].
    apply String.eqb_eq in He. now split. }
  destruct Hin as [Hin Hname].
  apply (first_null_notnull_none tb r cl Hnull Hin Hnn). now rewrite Hname.
Qed.

Lemma insert_row_missing_required_column_witness :
  fst (fst (insert_row Order [("customer_id", VInt 3)] seeded)) = false
  /\ snd (insert_row Order [("customer_id", VInt 3)] seeded) = seeded.
Proof.
  apply (insert_row_missing_required_column Order [("customer_id", VInt 3)]
           seeded _ "date" (col "date" AText true) eq_refl eq_refl eq_refl
           eq_refl).
  - discriminate.
  - reflexivity.
Defined.

(** ** The order of the payload's fields *)

Lemma dict_get_not_in (k : string) (d : dict) :
  ~ In k (dict_keys d) -> dict_get k d = None.
Proof.
  induction d as [|[k' v] d IH]; simpl; [reflexivity|].
  intros Hn. destruct (String.eqb k k') eqn:E.
  - apply String.eqb_eq in E. subst k'. tauto.
  - apply IH. tauto.
Qed.






